(** * Jitter analyzer: a shallow embedding of [generate_plots.py]

    The script loads CSV dumps of UDP traffic, splits every dump into the two
    directions of the link, derives jitter and delay series from the [Time]
    column and draws one figure per dump.

    Layout of this file:
    - file names and paths ([str.split], [in], [os.path.join]);
    - numpy arrays and the three series of [make_plot];
    - pandas frames and [filter_data];
    - the outside world (directory listings, parsed files, pyplot, the PNG
      files written) and a state-and-exception monad over it;
    - [load_data], [make_plot], [main] and the command-line entry point;
    - the theorems. *)

From stdpp Require Import gmap strings list fin_maps.
From Stdlib Require Import Ascii ZArith Lia.

(** ** File names and paths *)

(** [p in s] on Python strings. *)
Fixpoint contains (p s : string) : bool :=
  String.prefix p s ||
  match s with
  | "" => false
  | String _ s' => contains p s'
  end.

(** [s.split(sep)[0]] for a one-character separator: the text before the
    first occurrence of [sep], or all of [s] when there is none. *)
Fixpoint split_head (sep : ascii) (s : string) : string :=
  match s with
  | "" => ""
  | String c s' => if Ascii.eqb c sep then "" else String c (split_head sep s')
  end.

(** [s.endswith('/')]. *)
Fixpoint ends_with_sep (s : string) : bool :=
  match s with
  | "" => false
  | String c "" => Ascii.eqb c "/"%char
  | String _ s' => ends_with_sep s'
  end.

(** [os.path.join(a, b)] of [posixpath]. *)
Definition path_join (a b : string) : string :=
  if String.prefix "/" b then b
  else if bool_decide (a = "") || ends_with_sep a then a +:+ b
  else a +:+ "/" +:+ b.

(** ** Arrays of time stamps *)

(** The arithmetic the script performs on the entries of a [Time] column:
    subtraction, and the product [1000. * x]. *)
Class Scalar (T : Type) := {
  sub : T → T → T;
  scale_ms : T → T
}.

#[export] Instance Z_Scalar : Scalar Z := {|
  sub := Z.sub;
  scale_ms := Z.mul 1000
|}.

Inductive exn :=
  | ValueError
  | RuntimeError
  | IndexError
  | FileNotFoundError
  | NotADirectoryError
  | ParserError.

#[export] Instance exn_eq_dec : EqDecision exn.
Proof. solve_decision. Defined.

Section Arrays.
Context {T : Type} `{Scalar T}.

(** [np.roll(a, 1)]: every element moves one place to the right and the
    last one comes round to the front. *)
Definition np_roll1 (a : list T) : list T :=
  match reverse a with
  | [] => []
  | x :: r => x :: reverse r
  end.

(** [a - b] on one-dimensional arrays, with numpy's broadcasting of an
    array of size one; other shape mismatches raise [ValueError]. *)
Definition np_sub (a b : list T) : exn + list T :=
  if bool_decide (length a = length b) then inr (zip_with sub a b)
  else match a, b with
       | [x], _ => inr (map (sub x) b)
       | _, [y] => inr (map (λ x, sub x y) a)
       | _, _ => inl ValueError
       end.

(** [1000. * a]. *)
Definition np_scale (a : list T) : list T := map scale_ms a.

(** The size adjustment of [make_plot]:
    [if command_array.size > status_array.size: command_array = command_array[:status_array.size]]
    [else: status_array = status_array[:command_array.size]]. *)
Definition truncate (status_array command_array : list T) : list T * list T :=
  if length status_array <? length command_array
  then (status_array, take (length status_array) command_array)
  else (take (length command_array) status_array, command_array).

(** [a - np.roll(a, 1)]. *)
Definition raw_jitter (a : list T) : exn + list T := np_sub a (np_roll1 a).

(** What is expected of the raw jitter [raw] of an array [a]: dropping its
    entry 0 leaves one element fewer than [a] has; entry [i+1] is
    [a[i+1] - a[i]], and is entry [i] of what is left; entry 0 is
    [a[0] - a[-1]], the difference that wraps round. *)
Definition first_differences (a raw : list T) : Prop :=
  length (drop 1 raw) = length a - 1 ∧
  (∀ i x y, a !! i = Some x → a !! S i = Some y →
     raw !! S i = Some (sub y x) ∧ drop 1 raw !! i = Some (sub y x)) ∧
  (∀ x z, head a = Some x → last a = Some z → raw !! 0 = Some (sub x z)).

(** The same with the length as an integer: for a non-empty array what is
    left after dropping entry 0 has exactly [len(a) - 1] entries, and for
    an empty array nothing is left. *)
Definition jitter_without_wrap (a raw : list T) : Prop :=
  (a ≠ [] → Z.of_nat (length (drop 1 raw)) = (Z.of_nat (length a) - 1)%Z) ∧
  (a = [] → drop 1 raw = []) ∧
  (∀ i x y, a !! i = Some x → a !! S i = Some y →
     raw !! S i = Some (sub y x) ∧ drop 1 raw !! i = Some (sub y x)) ∧
  (∀ x z, head a = Some x → last a = Some z → raw !! 0 = Some (sub x z)).

(** What the three [plot] calls of one figure receive: the abscissae and
    ordinates of the status-jitter, command-jitter and delay curves. *)
Record Series := mkSeries {
  status_jitter_x : list T;
  status_jitter_y : list T;
  command_jitter_x : list T;
  command_jitter_y : list T;
  command_delay_x : list T;
  command_delay_y : list T
}.

(** Lines 93-118 of [make_plot], without the drawing. *)
Definition metrics (status_time command_time : list T) : exn + Series :=
  let '(status_array, command_array) := truncate status_time command_time in
  match raw_jitter status_array with
  | inl e => inl e
  | inr status_jitter =>
    match raw_jitter command_array with
    | inl e => inl e
    | inr command_jitter =>
      match np_sub command_array status_array with
      | inl e => inl e
      | inr command_delay =>
        inr {| status_jitter_x := drop 1 status_array;
               status_jitter_y := np_scale (drop 1 status_jitter);
               command_jitter_x := drop 1 command_array;
               command_jitter_y := np_scale (drop 1 command_jitter);
               command_delay_x := command_array;
               command_delay_y := np_scale command_delay |}
      end
    end
  end.
End Arrays.

Arguments Series : clear implicits.

(** ** Frames and the direction filter *)

Section Frames.
Context {T : Type}.

(** One record of a dump; the other columns of the CSV are not read. *)
Record Row := mkRow {
  Time : T;
  Source : string;
  Destination : string
}.

(** A frame is the list of its rows, in file order. *)
#[local] Abbreviation DataFrame := (list Row).

(** [frame[col] == v]: a boolean series, one entry per row. *)
Definition series_eq (col : Row → string) (v : string) (frame : DataFrame) : list bool :=
  map (λ r, bool_decide (col r = v)) frame.

(** [m1 & m2] on boolean series. *)
Definition series_and (m1 m2 : list bool) : list bool := zip_with andb m1 m2.

(** [frame[mask]]: the rows whose mask entry is [True], in order. *)
Fixpoint select (frame : DataFrame) (mask : list bool) : DataFrame :=
  match frame, mask with
  | r :: frame', b :: mask' =>
      if b then r :: select frame' mask' else select frame' mask'
  | _, _ => []
  end.

Definition to_arm_mask (frame : DataFrame) : list bool :=
  series_and (series_eq Destination "192.168.38.1" frame)
             (series_eq Source "192.168.38.11" frame).

Definition from_arm_mask (frame : DataFrame) : list bool :=
  series_and (series_eq Destination "192.168.38.11" frame)
             (series_eq Source "192.168.38.1" frame).

(** The two address pairs, as conditions on a row: [is_to_arm] is the
    pair tested on line 35, [is_from_arm] the one tested on line 36. *)
Definition is_to_arm (r : Row) : Prop :=
  Source r = "192.168.38.11" ∧ Destination r = "192.168.38.1".

Definition is_from_arm (r : Row) : Prop :=
  Source r = "192.168.38.1" ∧ Destination r = "192.168.38.11".

(** An element of the list [frames] of [filter_data]: the [[]] it is
    initialised with, or the tuple [(from_arm, to_arm)] assigned to it. *)
Inductive entry :=
  | placeholder
  | directions (from_arm to_arm : DataFrame).

(** The tuple the loop of [filter_data] builds from a frame. *)
Definition split_frame (frame : DataFrame) : entry :=
  directions (select frame (from_arm_mask frame)) (select frame (to_arm_mask frame)).

(** The body of the loop of [filter_data] at index [i]. *)
Definition filter_step (dataframes : list DataFrame)
    (frames : list entry) (i : nat) : exn + list entry :=
  match dataframes !! i with
  | None => inl IndexError
  | Some frame =>
      let to_arm := select frame (to_arm_mask frame) in
      let from_arm := select frame (from_arm_mask frame) in
      if bool_decide (i < length frames)
      then inr (<[i := directions from_arm to_arm]> frames)
      else inl IndexError
  end.

(** A [for] loop over a list of indices whose body may raise. *)
Fixpoint for_each {A I : Type} (body : A → I → exn + A)
    (acc : A) (range : list I) : exn + A :=
  match range with
  | [] => inr acc
  | i :: range' =>
      match body acc i with
      | inl e => inl e
      | inr acc' => for_each body acc' range'
      end
  end.

Definition filter_data (dataframes : list DataFrame) : exn + list entry :=
  let frames := replicate (length dataframes) placeholder in
  for_each (filter_step dataframes) frames (seq 0 (length dataframes)).

(** [e[0]] and [e[1]] for an element of the result of [filter_data];
    indexing the empty list raises. *)
Definition entry_0 (e : entry) : exn + DataFrame :=
  match e with
  | placeholder => inl IndexError
  | directions from_arm _ => inr from_arm
  end.

Definition entry_1 (e : entry) : exn + DataFrame :=
  match e with
  | placeholder => inl IndexError
  | directions _ to_arm => inr to_arm
  end.
End Frames.

Arguments Row : clear implicits.
Arguments entry : clear implicits.

Abbreviation DataFrame T := (list (Row T)).

(** ** The outside world *)

Section World.
Context {T : Type}.

(** One [plot] call: the axes it went to (by title) and its data. *)
Record Curve := mkCurve {
  axes_title : string;
  xs : list T;
  ys : list T
}.

(** A pyplot figure: its [suptitle] and the curves drawn, oldest first. *)
Record Figure := mkFigure {
  suptitle : string;
  curves : list Curve
}.

(** What the script reads and changes.  [listing] and [tables] describe the
    input side as it is when the script starts: the entries [os.listdir]
    returns for a directory, and the table [pd.read_csv] returns at a path
    (a path without a table is one at which [pd.read_csv] raises).  The
    directories that exist at the start are the paths with a listing; the
    regular files are the paths with a table or an image.  [dirs] and
    [files] are the output side: directories made by [os.makedirs] and the
    images written by [savefig].  [figures] is pyplot's list of open
    figures, the current one first.

    Scope.  Every table has the three columns the script reads, with
    numbers in [Time] (see [Row]): a file that pandas reads but that lacks
    one of the columns is not among the worlds described here.  The script
    lists the data directory only before it writes anything, so what a
    listing would return after a write is not recorded.  Access rights and
    full disks are not modelled. *)
Record World := mkWorld {
  cwd : string;
  listing : gmap string (list string);
  tables : gmap string (DataFrame T);
  dirs : gset string;
  files : gmap string Figure;
  figures : list Figure;
  shown : nat
}.

Definition set_dirs (f : gset string → gset string) (w : World) : World :=
  mkWorld (cwd w) (listing w) (tables w) (f (dirs w)) (files w) (figures w) (shown w).
Definition set_files (f : gmap string Figure → gmap string Figure) (w : World) : World :=
  mkWorld (cwd w) (listing w) (tables w) (dirs w) (f (files w)) (figures w) (shown w).
Definition set_figures (f : list Figure → list Figure) (w : World) : World :=
  mkWorld (cwd w) (listing w) (tables w) (dirs w) (files w) (f (figures w)) (shown w).
Definition set_shown (f : nat → nat) (w : World) : World :=
  mkWorld (cwd w) (listing w) (tables w) (dirs w) (files w) (figures w) (f (shown w)).

(** Computations that read and change the world and may raise; what was
    done before an exception stays done. *)
Definition M (A : Type) : Type := World → (exn + A) * World.

#[global] Instance M_ret : MRet M := λ A x w, (inr x, w).
#[global] Instance M_bind : MBind M := λ A B f m w,
  match m w with
  | (inl e, w') => (inl e, w')
  | (inr x, w') => f x w'
  end.

Definition raise {A} (e : exn) : M A := λ w, (inl e, w).
Definition lift {A} (r : exn + A) : M A := λ w, (r, w).
Definition gets {A} (f : World → A) : M A := λ w, (inr (f w), w).
Definition modify (f : World → World) : M unit := λ w, (inr (), f w).
Definition pass : M unit := mret ().

(** [for i in range: body(i)]. *)
Fixpoint for_in {I : Type} (body : I → M unit) (range : list I) : M unit :=
  match range with
  | [] => pass
  | i :: range' => body i ;; for_in body range'
  end.

(** [l[i]]. *)
Definition index {A} (l : list A) (i : nat) : exn + A :=
  match l !! i with
  | Some x => inr x
  | None => inl IndexError
  end.

(** *** os, pandas, pyplot *)

Definition os_getcwd : M string := gets cwd.

(** A path at which a regular file lies: a table or a saved image. *)
Definition is_regular_file (w : World) (p : string) : bool :=
  bool_decide (is_Some (tables w !! p)) || bool_decide (is_Some (files w !! p)).

(** [os.listdir(d)]: the entries of a directory; [NotADirectoryError] on a
    regular file, [FileNotFoundError] where the world has no directory. *)
Definition os_listdir (d : string) : M (list string) := λ w,
  match listing w !! d with
  | Some names => (inr names, w)
  | None =>
      if is_regular_file w d then (inl NotADirectoryError, w)
      else (inl FileNotFoundError, w)
  end.

Definition os_path_exists (p : string) : M bool :=
  gets (λ w, bool_decide (p ∈ dirs w) || bool_decide (is_Some (listing w !! p))
             || bool_decide (is_Some (tables w !! p))
             || bool_decide (is_Some (files w !! p))).

(** [os.makedirs(p)].  Only the directory asked for is recorded, not the
    parents made on the way, and making it is taken to succeed. *)
Definition os_makedirs (p : string) : M unit := modify (set_dirs (λ d, {[p]} ∪ d)).

(** [pd.read_csv(path)]: the table at the path; where there is none,
    pandas raises (a malformed or empty file, a directory, no file), which
    is rendered as [ParserError]. *)
Definition pd_read_csv (path : string) : M (DataFrame T) := λ w,
  match tables w !! path with
  | Some frame => (inr frame, w)
  | None => (inl ParserError, w)
  end.

(** [plt.subplots]: a new, empty figure becomes the current one. *)
Definition plt_subplots : M unit := modify (set_figures (λ fs, mkFigure "" [] :: fs)).

Definition on_current (f : Figure → Figure) (fs : list Figure) : list Figure :=
  match fs with
  | [] => []
  | fig :: fs' => f fig :: fs'
  end.

Definition fig_suptitle (title : string) : M unit :=
  modify (set_figures (on_current (λ fig, mkFigure title (curves fig)))).

(** [axis.plot(x, y)] followed by [set_axis_props(axis, title, ...)];
    matplotlib raises [ValueError] when [x] and [y] differ in length. *)
Definition ax_plot (title : string) (x y : list T) : M unit :=
  if bool_decide (length x = length y)
  then modify (set_figures (on_current (λ fig,
         mkFigure (suptitle fig) (curves fig ++ [mkCurve title x y]))))
  else raise ValueError.

(** [plt.savefig(path)]: the current figure goes into the file.  The write
    is taken to succeed, which it does when the directory of [path] exists
    and is a directory; [make_plot] has made it if nothing was there, so
    this leaves out a regular file in the place of that directory and a
    slash inside the title. *)
Definition plt_savefig (path : string) : M unit :=
  modify (λ w, set_files (λ fs, <[path := default (mkFigure "" []) (head (figures w))]> fs) w).

Definition plt_show : M unit := modify (set_shown S).
End World.

Arguments Curve : clear implicits.
Arguments Figure : clear implicits.
Arguments World : clear implicits.
Arguments M : clear implicits.

(** ** The script *)

Section Script.
Context {T : Type} `{Scalar T}.

Definition load_data (data_dir : string) : M T (list (DataFrame T) * list string) :=
  listed ← os_listdir data_dir ;
  let names := filter (λ name, contains ".csv" name = true) listed in
  listed' ← os_listdir data_dir ;
  let filepaths :=
    map (path_join data_dir) (filter (λ name, contains ".csv" name = true) listed') in
  frames ← mapM pd_read_csv filepaths ;
  mret (frames, map (split_head ".") names).

Definition make_plot (status_frame command_frame : DataFrame T) (title : string)
    (save show : bool) (figures_dir : option string) : M T unit :=
  if save && bool_decide (figures_dir = None) then raise ValueError
  else
    plt_subplots ;;
    fig_suptitle title ;;
    s ← lift (metrics (map Time status_frame) (map Time command_frame)) ;
    ax_plot "Status Frame Jitter" (status_jitter_x s) (status_jitter_y s) ;;
    ax_plot "Command Frame Jitter" (command_jitter_x s) (command_jitter_y s) ;;
    ax_plot "Command Frame Delay" (command_delay_x s) (command_delay_y s) ;;
    (if save then
       here ← os_getcwd ;
       let figure_path := path_join here "figures" in
       present ← os_path_exists figure_path ;
       (if (present : bool) then pass else os_makedirs figure_path) ;;
       plt_savefig (path_join figure_path (title +:+ ".png"))
     else pass) ;;
    if show then plt_show else pass.

(** The body of the loop of [main] at index [i]. *)
Definition main_step (filtered_frames : list (entry T)) (names : list string)
    (figures_dir : string) (save show : bool) (i : nat) : M T unit :=
  e0 ← lift (index filtered_frames i) ;
  status_frame ← lift (entry_0 e0) ;
  e1 ← lift (index filtered_frames i) ;
  command_frame ← lift (entry_1 e1) ;
  name ← lift (index names i) ;
  make_plot status_frame command_frame name save show (Some figures_dir).

Definition main (data_dir figures_dir : string) (save show : bool) : M T unit :=
  '(dataframes, names) ← load_data data_dir ;
  if bool_decide (length dataframes = 0) then raise RuntimeError
  else
    filtered_frames ← lift (filter_data dataframes) ;
    for_in (main_step filtered_frames names figures_dir save show)
           (seq 0 (length dataframes)).

(** The parsed command line. *)
Record Args := mkArgs {
  arg_data_dir : option string;
  arg_figure_dir : option string;
  arg_hide : bool;
  arg_save : bool
}.

(** The [__main__] block, after [parser.parse_args()]. *)
Definition script (args : Args) : M T unit :=
  data_dir ← match arg_data_dir args with
             | None => here ← os_getcwd ; mret (path_join here "data")
             | Some d => mret d
             end ;
  figure_dir ← match arg_figure_dir args with
               | None => here ← os_getcwd ; mret (path_join here "figures")
               | Some d => mret d
               end ;
  if arg_hide args && negb (arg_save args) then raise ValueError
  else main data_dir figure_dir (arg_save args) (negb (arg_hide args)).
End Script.

(** ** What a run leaves behind, in closed form

    These definitions say directly what the monadic code above computes
    step by step; the lemmas [load_data_eq], [make_plot_eq] and [main_eq]
    below prove that they agree with it. *)

Section Effects.
Context {T : Type} `{Scalar T}.

(** The entries of a listing that [load_data] keeps. *)
Definition csv_names (listed : list string) : list string :=
  filter (λ name, contains ".csv" name = true) listed.

(** The table at a path, for paths that have one. *)
Definition frame_at (w : World T) (path : string) : DataFrame T :=
  default [] (tables w !! path).

(** Lines 122 and 127: the directory and the file [make_plot] saves to. *)
Definition figure_path (w : World T) : string := path_join (cwd w) "figures".

Definition png_path (w : World T) (title : string) : string :=
  path_join (figure_path w) (title +:+ ".png").

(** The figure [make_plot] draws. *)
Definition figure_of (status_frame command_frame : DataFrame T) (title : string) : Figure T :=
  mkFigure title
    match metrics (map Time status_frame) (map Time command_frame) with
    | inl _ => []
    | inr s =>
        [mkCurve "Status Frame Jitter" (status_jitter_x s) (status_jitter_y s);
         mkCurve "Command Frame Jitter" (command_jitter_x s) (command_jitter_y s);
         mkCurve "Command Frame Delay" (command_delay_x s) (command_delay_y s)]
    end.

Definition path_present (w : World T) (p : string) : bool :=
  bool_decide (p ∈ dirs w) || bool_decide (is_Some (listing w !! p))
  || bool_decide (is_Some (tables w !! p))
  || bool_decide (is_Some (files w !! p)).

(** The world after one successful call of [make_plot]. *)
Definition after_plot (status_frame command_frame : DataFrame T) (title : string)
    (save show : bool) (w : World T) : World T :=
  let fig := figure_of status_frame command_frame title in
  mkWorld (cwd w) (listing w) (tables w)
    (if save && negb (path_present w (figure_path w))
     then {[figure_path w]} ∪ dirs w else dirs w)
    (if save then <[png_path w title := fig]> (files w) else files w)
    (fig :: figures w)
    (if show then S (shown w) else shown w).

(** One pass of the loop of [main], for a frame and its name. *)
Definition after_job (save show : bool) (w : World T) (job : DataFrame T * string) : World T :=
  after_plot (select job.1 (from_arm_mask job.1)) (select job.1 (to_arm_mask job.1))
             job.2 save show w.

(** The frames and names [load_data] returns for a listing, paired. *)
Definition jobs (w : World T) (data_dir : string) (listed : list string)
    : list (DataFrame T * string) :=
  map (λ name, (frame_at w (path_join data_dir name), split_head "." name))
      (csv_names listed).
End Effects.

(** The file name without its extension, as [os.path.splitext] would give
    it: the text before the last dot.  The script does not compute this;
    it is here to be compared with [split_head]. *)
Fixpoint stem (name : string) : string :=
  match name with
  | "" => ""
  | String c rest =>
      if Ascii.eqb c "." && negb (contains "." rest) then ""
      else String c (stem rest)
  end.

(** ** Sample data

    Small dumps and directories, with integer time stamps, on which the
    theorems below are tried. *)

Section Samples.
Local Open Scope Z_scope.

(** Two status frames from the arm, one command to it, and one packet of
    some other host. *)
Definition sample_frame : DataFrame Z :=
  [ mkRow 10 "192.168.38.1" "192.168.38.11";
    mkRow 11 "192.168.38.11" "192.168.38.1";
    mkRow 12 "10.0.0.7" "192.168.38.1";
    mkRow 14 "192.168.38.1" "192.168.38.11" ].

Definition sample_world (names : list string) : World Z :=
  mkWorld "/home/u"
    {[ "/data" := names ]}
    (list_to_map (map (λ name, (path_join "/data" name, sample_frame)) names))
    ∅ ∅ [] 0%nat.

(** A directory with one dump, one with two dumps whose names part at the
    first dot, one with two dumps whose names agree up to it, one whose
    dump has a dot in its stem, and one without a dump. *)
Definition one_csv : World Z := sample_world ["trace1.csv"].
Definition two_csv : World Z := sample_world ["trace1.csv"; "trace2.csv"].
Definition colliding_csv : World Z := sample_world ["run.a.csv"; "run.b.csv"].
Definition dotted_csv : World Z := sample_world ["run.a.csv"].
Definition no_csv : World Z := sample_world ["notes.txt"].
End Samples.

(** Further sample directories: one whose only match is a backup copy of a
    dump, and one with a dump beside an entry that does not parse. *)
Definition backup_csv : World Z := sample_world ["dump.csv.bak"; "notes.txt"].

Definition broken_csv : World Z :=
  mkWorld "/home/u"
    {[ "/data" := ["trace1.csv"; "bad.csv"] ]}
    {[ "/data/trace1.csv" := sample_frame ]}
    ∅ ∅ [] 0.

(** * Properties *)

(** ** Arrays: truncation, delay, jitter *)

Section ArrayFacts.
Context {T : Type} `{Scalar T}.
Implicit Types a b status command : list T.

Lemma np_sub_same_length a b :
  length a = length b → np_sub a b = inr (zip_with sub a b).
Proof. intros E. unfold np_sub. by rewrite bool_decide_eq_true_2. Qed.

Lemma np_roll1_snoc a x : np_roll1 (a ++ [x]) = x :: a.
Proof. unfold np_roll1. by rewrite reverse_snoc, reverse_involutive. Qed.

Lemma length_np_roll1 a : length (np_roll1 a) = length a.
Proof.
  destruct a as [|y a _] using rev_ind; [done|].
  rewrite np_roll1_snoc, length_app. simpl. lia.
Qed.

(** Away from the front, the rolled array holds the predecessor. *)
Lemma np_roll1_lookup_S a i : np_roll1 a !! S i = if bool_decide (S i < length a) then a !! i else None.
Proof.
  destruct a as [|y a _] using rev_ind.
  - by case_bool_decide.
  - rewrite np_roll1_snoc, length_app. simpl. case_bool_decide as Hi.
    + rewrite lookup_app_l by lia. done.
    + apply lookup_ge_None_2. lia.
Qed.

(** At the front, it holds the last element. *)
Lemma np_roll1_lookup_0 a : np_roll1 a !! 0 = last a.
Proof.
  destruct a as [|y a _] using rev_ind; [done|].
  by rewrite np_roll1_snoc, last_snoc.
Qed.

Lemma raw_jitter_eq a : raw_jitter a = inr (zip_with sub a (np_roll1 a)).
Proof. apply np_sub_same_length. by rewrite length_np_roll1. Qed.

Lemma truncate_eq status command :
  truncate status command =
    (take (length status `min` length command) status,
     take (length status `min` length command) command).
Proof.
  unfold truncate. destruct (Nat.ltb_spec (length status) (length command)).
  - rewrite Nat.min_l by lia. by rewrite firstn_all.
  - rewrite Nat.min_r by lia. by rewrite firstn_all.
Qed.

Lemma truncate_same_length status command :
  length (truncate status command).1 = length (truncate status command).2.
Proof. rewrite truncate_eq. simpl. rewrite !length_take. lia. Qed.

(** The computations of [make_plot] never raise, and this is what is
    handed to the three [plot] calls. *)
Lemma metrics_eq status command :
  let status_array := (truncate status command).1 in
  let command_array := (truncate status command).2 in
  metrics status command = inr
    {| status_jitter_x := drop 1 status_array;
       status_jitter_y := np_scale (drop 1 (zip_with sub status_array (np_roll1 status_array)));
       command_jitter_x := drop 1 command_array;
       command_jitter_y := np_scale (drop 1 (zip_with sub command_array (np_roll1 command_array)));
       command_delay_x := command_array;
       command_delay_y := np_scale (zip_with sub command_array status_array) |}.
Proof.
  intros status_array command_array. unfold metrics.
  pose proof (truncate_same_length status command) as E.
  destruct (truncate status command) as [s c]. simpl in *.
  subst status_array command_array.
  by rewrite !raw_jitter_eq, np_sub_same_length.
Qed.

Lemma length_np_scale a : length (np_scale a) = length a.
Proof. apply length_map. Qed.

Lemma first_differences_raw a : first_differences a (zip_with sub a (np_roll1 a)).
Proof.
  unfold first_differences. split_and!.
  - by rewrite length_drop, length_zip_with, length_np_roll1, Nat.min_id.
  - intros i x y Hx Hy.
    assert (zip_with sub a (np_roll1 a) !! S i = Some (sub y x)) as Hraw.
    { rewrite lookup_zip_with, Hy, np_roll1_lookup_S. simpl.
      apply lookup_lt_Some in Hy. by rewrite bool_decide_eq_true_2, Hx. }
    split; [done|]. by rewrite lookup_drop.
  - intros x z Hx Hz.
    rewrite head_lookup in Hx.
    by rewrite lookup_zip_with, Hx, np_roll1_lookup_0, Hz.
Qed.

(** C5: the command-delay series has length [min(len(status), len(command))],
    is computed over the leading prefixes [[0:min_len]] of both arrays, and
    satisfies [delay[i] = command[i] - status[i]] at every index; it is what
    the delay plot shows, scaled by 1000. *)
Theorem command_delay_over_common_prefix status command :
  let m := length status `min` length command in
  ∃ series delay,
    truncate status command = (take m status, take m command) ∧
    np_sub (take m command) (take m status) = inr delay ∧
    metrics status command = inr series ∧
    command_delay_x series = take m command ∧
    command_delay_y series = np_scale delay ∧
    length delay = m ∧
    ∀ i, i < m →
      ∃ s c, status !! i = Some s ∧ command !! i = Some c ∧
             delay !! i = Some (sub c s).
Proof.
  intros m. pose proof (metrics_eq status command) as Hm.
  rewrite truncate_eq in Hm. simpl in Hm. fold m in Hm.
  assert (length (take m command) = length (take m status)) as E.
  { rewrite !length_take. lia. }
  eexists _, (zip_with sub (take m command) (take m status)).
  split_and!; [apply truncate_eq | by apply np_sub_same_length | exact Hm
              | done | done | | ].
  - rewrite length_zip_with, !length_take. lia.
  - intros i Hi.
    destruct (lookup_lt_is_Some_2 status i) as [s Hs]; [lia|].
    destruct (lookup_lt_is_Some_2 command i) as [c Hc]; [lia|].
    exists s, c. split_and!; [done..|].
    by rewrite lookup_zip_with, !lookup_take_lt, Hs, Hc.
Qed.

Lemma jitter_without_wrap_raw a : jitter_without_wrap a (zip_with sub a (np_roll1 a)).
Proof.
  destruct (first_differences_raw a) as (Hlen & Hdiff & Hwrap).
  split_and!; [| |exact Hdiff|exact Hwrap].
  - intros Ha. rewrite Hlen. destruct a; [done|]. simpl. lia.
  - intros ->. done.
Qed.

(** C6, as amended: for both truncated arrays the plotted jitter is the raw
    difference [a - np.roll(a, 1)] without its entry 0; for a non-empty
    array it has exactly one element fewer than the array, and for an empty
    array it is empty; entry [i >= 1] of the raw difference is
    [a[i] - a[i-1]], and entry 0, which is [a[0] - a[-1]] by the circular
    shift, is not among the plotted values. *)
Theorem jitter_drops_the_wrapped_difference status command :
  ∃ series status_jitter command_jitter,
    metrics status command = inr series ∧
    raw_jitter (truncate status command).1 = inr status_jitter ∧
    raw_jitter (truncate status command).2 = inr command_jitter ∧
    status_jitter_y series = np_scale (drop 1 status_jitter) ∧
    command_jitter_y series = np_scale (drop 1 command_jitter) ∧
    length (status_jitter_y series) = length (drop 1 status_jitter) ∧
    length (command_jitter_y series) = length (drop 1 command_jitter) ∧
    jitter_without_wrap (truncate status command).1 status_jitter ∧
    jitter_without_wrap (truncate status command).2 command_jitter.
Proof.
  eexists _, _, _.
  split_and!; [apply metrics_eq | apply raw_jitter_eq | apply raw_jitter_eq
              | done | done | | | apply jitter_without_wrap_raw..].
  - simpl. apply length_np_scale.
  - simpl. apply length_np_scale.
Qed.
End ArrayFacts.

(** ** The direction filter *)

Section FilterFacts.
Context {T : Type}.
Implicit Types (frame : DataFrame T) (row : Row T).

Lemma select_map frame (p : Row T → bool) :
  select frame (map p frame) = filter (λ r, p r = true) frame.
Proof.
  induction frame as [|r frame IH]; [done|].
  rewrite filter_cons. cbn [map select]. rewrite IH.
  destruct (p r); by case_decide.
Qed.

Lemma series_and_map frame (p q : Row T → bool) :
  series_and (map p frame) (map q frame) = map (λ r, p r && q r) frame.
Proof. induction frame; [done|]. unfold series_and in *. simpl. by f_equal. Qed.

Lemma select_to_arm frame :
  select frame (to_arm_mask frame) = filter is_to_arm frame.
Proof.
  unfold to_arm_mask, series_eq. rewrite series_and_map, select_map.
  apply list_filter_iff. intros r. unfold is_to_arm.
  rewrite andb_true_iff, !bool_decide_eq_true. tauto.
Qed.

Lemma select_from_arm frame :
  select frame (from_arm_mask frame) = filter is_from_arm frame.
Proof.
  unfold from_arm_mask, series_eq. rewrite series_and_map, select_map.
  apply list_filter_iff. intros r. unfold is_from_arm.
  rewrite andb_true_iff, !bool_decide_eq_true. tauto.
Qed.

Lemma filter_loop (dataframes : list (DataFrame T)) n k :
  k + n = length dataframes →
  for_each (filter_step dataframes)
    (map split_frame (take k dataframes) ++ replicate n placeholder)
    (seq k n)
  = inr (map split_frame dataframes).
Proof.
  revert k. induction n as [|n IH]; intros k Hk; simpl.
  - rewrite take_ge by lia. by rewrite app_nil_r.
  - destruct (lookup_lt_is_Some_2 dataframes k) as [frame Hframe]; [lia|].
    assert (length (map split_frame (take k dataframes)) = k) as Hlen.
    { rewrite length_map, length_take. lia. }
    unfold filter_step at 1. rewrite Hframe.
    rewrite bool_decide_eq_true_2
      by (rewrite length_app, Hlen; simpl; lia).
    rewrite insert_app_r_alt by lia. rewrite Hlen, Nat.sub_diag. simpl.
    fold (split_frame frame).
    replace (map split_frame (take k dataframes) ++ split_frame frame :: replicate n placeholder)
      with (map split_frame (take (S k) dataframes) ++ replicate n placeholder).
    + apply IH. lia.
    + rewrite (take_S_r _ _ _ Hframe), map_app, <- app_assoc. done.
Qed.

(** The loop never raises, and stores the two selections of every frame
    at the frame's own index. *)
Lemma filter_data_eq (dataframes : list (DataFrame T)) :
  filter_data dataframes = inr (map split_frame dataframes).
Proof.
  unfold filter_data.
  pose proof (filter_loop dataframes (length dataframes) 0 eq_refl) as E.
  by rewrite take_0 in E.
Qed.

Lemma lookup_map {A B} (f : A → B) (l : list A) i : map f l !! i = f <$> l !! i.
Proof. revert i. induction l; intros [|i]; simpl; auto. Qed.

Lemma to_arm_mask_lookup frame j row :
  frame !! j = Some row →
  to_arm_mask frame !! j = Some true ↔ is_to_arm row.
Proof.
  intros Hrow. unfold to_arm_mask, series_eq.
  rewrite series_and_map, lookup_map, Hrow. simpl. unfold is_to_arm.
  split.
  - intros [= E]. apply andb_true_iff in E as [?%bool_decide_eq_true ?%bool_decide_eq_true]. done.
  - intros [? ?]. by rewrite !bool_decide_eq_true_2.
Qed.

Lemma from_arm_mask_lookup frame j row :
  frame !! j = Some row →
  from_arm_mask frame !! j = Some true ↔ is_from_arm row.
Proof.
  intros Hrow. unfold from_arm_mask, series_eq.
  rewrite series_and_map, lookup_map, Hrow. simpl. unfold is_from_arm.
  split.
  - intros [= E]. apply andb_true_iff in E as [?%bool_decide_eq_true ?%bool_decide_eq_true]. done.
  - intros [? ?]. by rewrite !bool_decide_eq_true_2.
Qed.

Lemma directions_exclusive row : is_to_arm row → is_from_arm row → False.
Proof. intros [E _] [E' _]. rewrite E in E'. discriminate. Qed.

Lemma mask_lookup_row frame (mask : DataFrame T → list bool) j :
  length (mask frame) = length frame →
  mask frame !! j = Some true → ∃ row, frame !! j = Some row.
Proof.
  intros Hlen Hj. apply lookup_lt_Some in Hj. rewrite Hlen in Hj.
  by apply lookup_lt_is_Some_2.
Qed.

Lemma length_to_arm_mask frame : length (to_arm_mask frame) = length frame.
Proof. unfold to_arm_mask, series_eq. by rewrite series_and_map, length_map. Qed.

Lemma length_from_arm_mask frame : length (from_arm_mask frame) = length frame.
Proof. unfold from_arm_mask, series_eq. by rewrite series_and_map, length_map. Qed.

(** C7: [filter_data] puts a row of a frame into a direction exactly when
    both its [Source] and its [Destination] equal, as strings, the address
    pair of that direction (to the arm: from 192.168.38.11 to 192.168.38.1;
    from the arm: the reverse); a row matching neither pair is in neither
    table. *)
Theorem filter_matches_both_addresses (dataframes : list (DataFrame T)) :
  ∃ frames,
    filter_data dataframes = inr frames ∧
    length frames = length dataframes ∧
    ∀ i frame, dataframes !! i = Some frame →
      ∃ from_arm to_arm,
        frames !! i = Some (directions from_arm to_arm) ∧
        to_arm = select frame (to_arm_mask frame) ∧
        from_arm = select frame (from_arm_mask frame) ∧
        (∀ j row, frame !! j = Some row →
           (to_arm_mask frame !! j = Some true ↔
              Source row = "192.168.38.11" ∧ Destination row = "192.168.38.1") ∧
           (from_arm_mask frame !! j = Some true ↔
              Source row = "192.168.38.1" ∧ Destination row = "192.168.38.11")) ∧
        (∀ row, row ∈ to_arm ↔
           row ∈ frame ∧ Source row = "192.168.38.11" ∧ Destination row = "192.168.38.1") ∧
        (∀ row, row ∈ from_arm ↔
           row ∈ frame ∧ Source row = "192.168.38.1" ∧ Destination row = "192.168.38.11") ∧
        (∀ row, ¬ is_to_arm row → ¬ is_from_arm row →
           (row ∉ to_arm) ∧ (row ∉ from_arm)).
Proof.
  exists (map split_frame dataframes).
  split_and!; [apply filter_data_eq | apply length_map |].
  intros i frame Hframe. eexists _, _.
  split_and!; [by rewrite lookup_map, Hframe | done | done | ..].
  - intros j row Hrow. split.
    + apply (to_arm_mask_lookup _ _ _ Hrow).
    + apply (from_arm_mask_lookup _ _ _ Hrow).
  - intros row. rewrite select_to_arm, list_elem_of_filter. unfold is_to_arm. tauto.
  - intros row. rewrite select_from_arm, list_elem_of_filter. unfold is_from_arm. tauto.
  - intros row Hto Hfrom.
    rewrite select_to_arm, select_from_arm, !list_elem_of_filter. tauto.
Qed.

(** C10: the two tables [filter_data] makes of a frame have no row in
    common, no row position is selected for both, and each table is a
    subsequence of the frame, rows in their original order. *)
Theorem filter_directions_disjoint_and_ordered (dataframes : list (DataFrame T)) :
  ∃ frames,
    filter_data dataframes = inr frames ∧
    ∀ i frame, dataframes !! i = Some frame →
      ∃ from_arm to_arm,
        frames !! i = Some (directions from_arm to_arm) ∧
        sublist from_arm frame ∧
        sublist to_arm frame ∧
        (∀ row, ¬ (row ∈ from_arm ∧ row ∈ to_arm)) ∧
        (∀ j, ¬ (from_arm_mask frame !! j = Some true ∧
                 to_arm_mask frame !! j = Some true)).
Proof.
  exists (map split_frame dataframes). split; [apply filter_data_eq|].
  intros i frame Hframe. eexists _, _.
  split_and!; [by rewrite lookup_map, Hframe | ..].
  - rewrite select_from_arm. apply sublist_filter.
  - rewrite select_to_arm. apply sublist_filter.
  - intros row. rewrite select_to_arm, select_from_arm, !list_elem_of_filter.
    intros [[Hfrom _] [Hto _]]. by apply (directions_exclusive row).
  - intros j [Hfrom Hto].
    destruct (mask_lookup_row frame to_arm_mask j (length_to_arm_mask frame) Hto)
      as [row Hrow].
    apply (directions_exclusive row).
    + by apply (to_arm_mask_lookup frame j).
    + by apply (from_arm_mask_lookup frame j).
Qed.
End FilterFacts.

(** ** Paths *)

Section PathFacts.
Lemma string_app_nil (b : string) : "" +:+ b = b.
Proof. reflexivity. Qed.

Lemma string_app_cons c (a b : string) : String c a +:+ b = String c (a +:+ b).
Proof. reflexivity. Qed.

Lemma ends_with_sep_app a b : b ≠ "" → ends_with_sep (a +:+ b) = ends_with_sep b.
Proof.
  intros Hb. induction a as [|c a IH]; [done|].
  rewrite string_app_cons. cbn [ends_with_sep]. rewrite IH.
  destruct (a +:+ b) eqn:E; [|done].
  destruct a; [|discriminate]. by rewrite string_app_nil in E.
Qed.

Lemma string_app_assoc (a b c : string) : (a +:+ b) +:+ c = a +:+ b +:+ c.
Proof.
  induction a as [|x a IH]; [done|]. by rewrite !string_app_cons, IH.
Qed.



(** The directory saved to is [cwd] followed by [figures], with a slash
    between them where one is needed. *)
Lemma path_join_figures here :
  ∃ dir, path_join here "figures" = dir +:+ "figures".
Proof.
  unfold path_join. simpl. destruct (_ || _).
  - by exists here.
  - exists (here +:+ "/"). by rewrite string_app_assoc.
Qed.

Lemma path_join_relative dir (b : string) :
  String.prefix "/" b = false →
  path_join (path_join dir "figures") b = path_join dir "figures" +:+ "/" +:+ b.
Proof.
  intros Hb. unfold path_join at 1. rewrite Hb.
  destruct (path_join_figures dir) as [d ->].
  rewrite ends_with_sep_app by done. simpl.
  rewrite bool_decide_eq_false_2; [done|]. by destruct d.
Qed.

Lemma prefix_char_cons a c (s : string) :
  String.prefix (String a "") (String c s) = bool_decide (c = a).
Proof.
  change (String.prefix (String a "") (String c s))
    with (if ascii_dec a c then String.prefix "" s else false).
  destruct (ascii_dec a c) as [<-|Hc].
  - rewrite bool_decide_eq_true_2 by done. by destruct s.
  - by rewrite bool_decide_eq_false_2.
Qed.

Lemma prefix_sep_cons c (s : string) :
  String.prefix "/" (String c s) = bool_decide (c = "/"%char).
Proof. apply prefix_char_cons. Qed.

Lemma prefix_sep_app (a b : string) :
  a ≠ "" → String.prefix "/" (a +:+ b) = String.prefix "/" a.
Proof.
  destruct a as [|c a]; [done|]. intros _.
  by rewrite string_app_cons, !prefix_sep_cons.
Qed.

Lemma split_head_prefix_sep name :
  String.prefix "/" name = false → String.prefix "/" (split_head "." name) = false.
Proof.
  destruct name as [|c name]; [done|]. cbn [split_head].
  destruct (Ascii.eqb_spec c "."); [done|]. by rewrite !prefix_sep_cons.
Qed.

Lemma prefix_sep_png title :
  String.prefix "/" title = false → String.prefix "/" (title +:+ ".png") = false.
Proof.
  destruct title as [|c title]; [done|]. intros Ht.
  by rewrite prefix_sep_app.
Qed.
End PathFacts.

(** ** Running the script *)

Section RunFacts.
Context {T : Type} `{Scalar T}.
Implicit Types (w : World T) (frame : DataFrame T).

Lemma bind_eq {A B} (m : M T A) (f : A → M T B) w :
  (m ≫= f) w =
    match m w with
    | (inl e, w') => (inl e, w')
    | (inr x, w') => f x w'
    end.
Proof. reflexivity. Qed.

Lemma bind_inr {A B} (m : M T A) (f : A → M T B) w x w' :
  m w = (inr x, w') → (m ≫= f) w = f x w'.
Proof. intros E. by rewrite bind_eq, E. Qed.

Lemma bind_inl {A B} (m : M T A) (f : A → M T B) w e w' :
  m w = (inl e, w') → (m ≫= f) w = (inl e, w').
Proof. intros E. by rewrite bind_eq, E. Qed.


Lemma mapM_read_csv w paths :
  Forall (λ path, is_Some (tables w !! path)) paths →
  mapM pd_read_csv paths w = (inr (map (frame_at w) paths), w).
Proof.
  induction 1 as [|path paths [frame Hframe] _ IH]; [done|].
  cbn [mapM map]. fold (mapM (M := M T) pd_read_csv paths).
  rewrite (bind_inr _ _ w frame w) by (unfold pd_read_csv; by rewrite Hframe).
  rewrite (bind_inr _ _ _ _ _ IH).
  unfold frame_at. by rewrite Hframe.
Qed.

(** [load_data] on a directory that lists and whose CSV entries parse. *)
Lemma load_data_eq w data_dir listed :
  listing w !! data_dir = Some listed →
  Forall (λ name, is_Some (tables w !! path_join data_dir name)) (csv_names listed) →
  load_data data_dir w =
    (inr (map fst (jobs w data_dir listed), map snd (jobs w data_dir listed)), w).
Proof.
  intros Hlist Hparse. unfold load_data.
  assert (os_listdir data_dir w = (inr listed, w)) as Hls.
  { unfold os_listdir. by rewrite Hlist. }
  rewrite (bind_inr _ _ _ _ _ Hls), (bind_inr _ _ _ _ _ Hls).
  fold (csv_names listed).
  erewrite bind_inr by (apply mapM_read_csv; by rewrite Forall_map).
  unfold jobs. by rewrite !map_map.
Qed.

(** Without a match in the listing nothing is read at all. *)
Lemma load_data_nil w data_dir listed :
  listing w !! data_dir = Some listed →
  csv_names listed = [] →
  load_data data_dir w = (inr ([], []), w).
Proof.
  intros Hlist Hnil. rewrite (load_data_eq w data_dir listed Hlist).
  - unfold jobs. by rewrite Hnil.
  - by rewrite Hnil.
Qed.

Lemma ax_plot_eq title (x y : list T) w :
  length x = length y →
  ax_plot title x y w =
    (inr (), set_figures (on_current (λ fig,
               mkFigure (suptitle fig) (curves fig ++ [mkCurve title x y]))) w).
Proof. intros E. unfold ax_plot. by rewrite bool_decide_eq_true_2. Qed.

Lemma metrics_lengths status command :
  ∃ s, metrics status command = inr s ∧
    length (status_jitter_x s) = length (status_jitter_y s) ∧
    length (command_jitter_x s) = length (command_jitter_y s) ∧
    length (command_delay_x s) = length (command_delay_y s).
Proof.
  eexists. split; [apply metrics_eq|]. simpl.
  pose proof (truncate_same_length status command).
  rewrite !length_np_scale, !length_drop, !length_zip_with, !length_np_roll1.
  lia.
Qed.

(** A call of [make_plot] with a directory argument succeeds, and leaves
    the world [after_plot] describes; the directory argument plays no part. *)
Lemma make_plot_eq status_frame command_frame title save show figures_dir w :
  make_plot status_frame command_frame title save show (Some figures_dir) w =
    (inr (), after_plot status_frame command_frame title save show w).
Proof.
  unfold make_plot, after_plot, figure_of.
  destruct (metrics_lengths (map Time status_frame) (map Time command_frame))
    as (s & Hs & L1 & L2 & L3).
  rewrite Hs, andb_false_r.
  unfold mbind, M_bind, plt_subplots, fig_suptitle, lift, modify.
  rewrite (ax_plot_eq _ _ _ _ L1), (ax_plot_eq _ _ _ _ L2), (ax_plot_eq _ _ _ _ L3).
  destruct save, show; simpl;
    unfold os_getcwd, os_path_exists, gets, mbind, M_bind, path_present, figure_path,
      png_path, figure_path; simpl;
    try destruct (_ || _ || _ || _); reflexivity.
Qed.

Lemma index_eq {A} (l : list A) i x : l !! i = Some x → index l i = inr x.
Proof. intros E. unfold index. by rewrite E. Qed.

Lemma lift_eq {A} (r : exn + A) w : lift r w = (r, w).
Proof. reflexivity. Qed.

(** One pass of the loop of [main]. *)
Lemma main_step_eq (frames : list (DataFrame T)) names figures_dir save show i frame name w :
  frames !! i = Some frame →
  names !! i = Some name →
  main_step (map split_frame frames) names figures_dir save show i w =
    (inr (), after_job save show w (frame, name)).
Proof.
  intros Hframe Hname. unfold main_step.
  assert (index (map split_frame frames) i = inr (split_frame frame)) as Hi.
  { apply index_eq. by rewrite lookup_map, Hframe. }
  rewrite Hi, (index_eq _ _ _ Hname).
  rewrite !(bind_inr _ _ _ _ _ (lift_eq _ _)). simpl.
  rewrite !(bind_inr _ _ _ _ _ (lift_eq _ _)).
  apply make_plot_eq.
Qed.

(** The passes from index [k] on. *)
Lemma main_loop (frames : list (DataFrame T)) names figures_dir save show n k w :
  length frames = length names →
  k + n = length frames →
  for_in (main_step (map split_frame frames) names figures_dir save show) (seq k n) w =
    (inr (), foldl (after_job save show) w (drop k (zip frames names))).
Proof.
  intros Hlen. revert k w. induction n as [|n IH]; intros k w Hk.
  - rewrite drop_ge; [done|]. rewrite length_zip_with. lia.
  - destruct (lookup_lt_is_Some_2 frames k) as [frame Hframe]; [lia|].
    destruct (lookup_lt_is_Some_2 names k) as [name Hname]; [lia|].
    cbn [seq for_in].
    rewrite (bind_inr _ _ _ _ _ (main_step_eq _ _ _ _ _ _ _ _ _ Hframe Hname)).
    rewrite IH by lia.
    rewrite (drop_S (zip frames names) (frame, name) k); [done|].
    by rewrite lookup_zip_with, Hframe, Hname.
Qed.

Lemma jobs_zip w data_dir listed :
  zip (map fst (jobs w data_dir listed)) (map snd (jobs w data_dir listed)) =
    jobs w data_dir listed.
Proof. induction (jobs w data_dir listed) as [|[??] ? IH]; [done|]. simpl. by f_equal. Qed.

(** A whole run of [main] over a directory that lists, has at least one
    CSV entry, and whose CSV entries all parse: one pass per entry, in the
    order of the listing. *)
Lemma main_eq w data_dir figures_dir save show listed :
  listing w !! data_dir = Some listed →
  Forall (λ name, is_Some (tables w !! path_join data_dir name)) (csv_names listed) →
  csv_names listed ≠ [] →
  main data_dir figures_dir save show w =
    (inr (), foldl (after_job save show) w (jobs w data_dir listed)).
Proof.
  intros Hlist Hparse Hne. unfold main.
  rewrite (bind_inr _ _ _ _ _ (load_data_eq _ _ _ Hlist Hparse)).
  rewrite bool_decide_eq_false_2.
  2:{ rewrite length_map. unfold jobs. rewrite length_map.
      by destruct (csv_names listed). }
  rewrite filter_data_eq, (bind_inr _ _ _ _ _ (lift_eq _ _)).
  rewrite (main_loop _ _ _ _ _ _ 0) by (by rewrite ?length_map).
  by rewrite drop_0, jobs_zip.
Qed.

(** [main] on a directory without a CSV entry. *)
Lemma main_no_csv w data_dir figures_dir save show listed :
  listing w !! data_dir = Some listed →
  csv_names listed = [] →
  main data_dir figures_dir save show w = (inl RuntimeError, w).
Proof.
  intros Hlist Hnil. unfold main.
  by rewrite (bind_inr _ _ _ _ _ (load_data_nil _ _ _ Hlist Hnil)).
Qed.

(** *** What the passes add up to *)

Lemma after_jobs_cwd save show w (js : list (DataFrame T * string)) :
  cwd (foldl (after_job save show) w js) = cwd w.
Proof. revert w. induction js as [|j js IH]; intros w; [done|]. simpl. by rewrite IH. Qed.

Lemma after_jobs_figures save show w (js : list (DataFrame T * string)) :
  length (figures (foldl (after_job save show) w js)) = length js + length (figures w).
Proof.
  revert w. induction js as [|j js IH]; intros w; [done|].
  simpl. rewrite IH. simpl. lia.
Qed.

Lemma after_jobs_suptitles save show w (js : list (DataFrame T * string)) :
  map suptitle (figures (foldl (after_job save show) w js)) =
    reverse (map snd js) ++ map suptitle (figures w).
Proof.
  revert w. induction js as [|j js IH]; intros w; [done|].
  simpl. rewrite IH. simpl. by rewrite reverse_cons, <- app_assoc.
Qed.

Lemma after_jobs_files_dom show w (js : list (DataFrame T * string)) :
  dom (files (foldl (after_job true show) w js)) =
    dom (files w) ∪ list_to_set (map (λ j, png_path w j.2) js).
Proof.
  revert w. induction js as [|j js IH]; intros w.
  - simpl. by rewrite (right_id_L ∅ (∪)).
  - cbn [foldl]. rewrite IH. cbn [after_job after_plot files map list_to_set].
    rewrite dom_insert_L. unfold png_path, figure_path. cbn [cwd].
    by rewrite (comm_L (∪) {[_]} (dom (files w))), <- (assoc_L (∪)).
Qed.

Lemma after_jobs_files_unsaved show w (js : list (DataFrame T * string)) :
  files (foldl (after_job false show) w js) = files w ∧
  dirs (foldl (after_job false show) w js) = dirs w.
Proof. revert w. induction js as [|j js IH]; intros w; [done|]. simpl. by rewrite !(proj1 (IH _)), !(proj2 (IH _)). Qed.

Lemma csv_names_nil listed :
  Forall (λ name, contains ".csv" name = false) listed → csv_names listed = [].
Proof.
  unfold csv_names. induction 1 as [|name listed Hname _ IH]; [done|].
  rewrite filter_cons, decide_False by (by rewrite Hname). done.
Qed.

Lemma split_head_no_dot (s : string) :
  contains "." s = false → split_head "." (s +:+ ".csv") = s.
Proof.
  induction s as [|c s IH]; [done|]. intros Hs.
  cbn [contains] in Hs. apply orb_false_iff in Hs as [Hc Hs].
  rewrite string_app_cons. cbn [split_head].
  destruct (Ascii.eqb_spec c ".") as [->|_].
  - by rewrite prefix_char_cons in Hc.
  - by rewrite IH.
Qed.

(** The directory argument of [main] does not enter the run. *)
Lemma main_ignores_figures_dir data_dir figures_dir figures_dir' save show w :
  main data_dir figures_dir save show w = main data_dir figures_dir' save show w.
Proof.
  unfold main. rewrite !bind_eq.
  destruct (load_data data_dir w) as [[e|[dataframes names]] w1]; [done|].
  case_bool_decide; [done|]. rewrite !bind_eq, !lift_eq.
  destruct (filter_data dataframes) as [e|filtered_frames]; [done|].
  generalize (seq 0 (length dataframes)). intros range. revert w1.
  induction range as [|i range IH]; intros w1; [done|].
  cbn [for_in]. rewrite !bind_eq.
  replace (main_step filtered_frames names figures_dir' save show i w1)
    with (main_step filtered_frames names figures_dir save show i w1).
  - destruct (main_step _ _ _ _ _ _ _) as [[e|[]] w2]; [done|]. apply IH.
  - unfold main_step. rewrite !bind_eq, !lift_eq.
    destruct (index filtered_frames i) as [e|e0]; [done|].
    rewrite !bind_eq, !lift_eq. destruct (entry_0 e0); [done|].
    rewrite !bind_eq, !lift_eq. destruct (entry_1 e0); [done|].
    rewrite !bind_eq, !lift_eq. destruct (index names i); [done|].
    by destruct save.
Qed.

(** C9: [make_plot] called to save without a directory ([figures_dir] is
    [None]) raises [ValueError] at once: no figure is opened, nothing is
    drawn or written, the world is as it was. *)
Theorem make_plot_save_needs_directory status_frame command_frame title show w :
  make_plot status_frame command_frame title true show None w = (inl ValueError, w).
Proof. reflexivity. Qed.

(** C3: with [--hide] and without [--save] the script raises [ValueError]
    before [main] is reached, whatever the directories are; the world,
    and so the set of files, is unchanged. *)
Theorem hide_without_save_is_rejected data_dir figure_dir w :
  script (mkArgs data_dir figure_dir true false) w = (inl ValueError, w).
Proof. by destruct data_dir, figure_dir. Qed.

(** C4: over a directory none of whose entries contains [.csv], [main]
    raises [RuntimeError] and leaves the world as it was (no figure opened,
    no file written); the script started on that directory, with flags
    that pass its own check, ends the same way. *)
Theorem no_csv_is_a_runtime_error w data_dir figures_dir save show listed :
  listing w !! data_dir = Some listed →
  Forall (λ name, contains ".csv" name = false) listed →
  main data_dir figures_dir save show w = (inl RuntimeError, w) ∧
  ∀ args,
    default (path_join (cwd w) "data") (arg_data_dir args) = data_dir →
    arg_hide args && negb (arg_save args) = false →
    script args w = (inl RuntimeError, w).
Proof.
  intros Hlist Hnone. apply csv_names_nil in Hnone.
  split; [by apply (main_no_csv _ _ _ _ _ listed)|].
  intros [dd fd hide sv] Hdd Hflags. simpl in *. unfold script. simpl.
  rewrite Hflags.
  destruct dd as [d|], fd as [f|]; simpl in Hdd; subst data_dir;
    rewrite !bind_eq; simpl; by apply (main_no_csv _ _ _ _ _ listed).
Qed.


Lemma contains_prefix_false (p name : string) :
  contains p name = false → String.prefix p name = false.
Proof. destruct name; cbn [contains]; by intros [? _]%orb_false_iff. Qed.



(** C8, as amended: the name [load_data] pairs with a file is the file
    name's text before its first dot, which for [<stem>.csv] with no dot
    in [<stem>] is [<stem>]; [main] gives each figure that name as its
    title, and a run that saves writes it to [<cwd>/figures/<name>.png]. *)
Theorem names_are_text_before_first_dot w data_dir figures_dir save show listed :
  listing w !! data_dir = Some listed →
  Forall (λ name, is_Some (tables w !! path_join data_dir name)) (csv_names listed) →
  (∃ frames,
     load_data data_dir w =
       (inr (frames, map (split_head ".") (csv_names listed)), w)) ∧
  (∀ stem_ : string, contains "." stem_ = false →
     split_head "." (stem_ +:+ ".csv") = stem_) ∧
  (csv_names listed ≠ [] →
   ∃ w',
     main data_dir figures_dir save show w = (inr (), w') ∧
     map suptitle (figures w') =
       reverse (map (split_head ".") (csv_names listed)) ++ map suptitle (figures w) ∧
     (save = true → ∀ name, name ∈ csv_names listed →
        path_join (path_join (cwd w) "figures") (split_head "." name +:+ ".png")
          ∈ dom (files w'))).
Proof.
  intros Hlist Hparse. split_and!.
  - eexists. rewrite (load_data_eq _ _ _ Hlist Hparse). unfold jobs.
    by rewrite !map_map.
  - apply split_head_no_dot.
  - intros Hne. eexists. split; [by apply main_eq|]. split.
    + rewrite after_jobs_suptitles. unfold jobs. by rewrite map_map.
    + intros -> name Hname. rewrite after_jobs_files_dom.
      apply elem_of_union_r, elem_of_list_to_set, list_elem_of_In, in_map_iff.
      exists (frame_at w (path_join data_dir name), split_head "." name).
      split; [done|]. unfold jobs. apply in_map_iff. exists name.
      split; [done|]. by apply list_elem_of_In.
Qed.
End RunFacts.

(** ** The sample runs *)

Section SampleRuns.
Local Open Scope Z_scope.

(** Every CSV entry of a concrete listing has a table. *)
Ltac all_parse :=
  match goal with
  | |- Forall _ (csv_names ?l) =>
      let names := eval vm_compute in (csv_names l) in
      change (csv_names l) with names;
      repeat (constructor; [eexists; vm_compute; reflexivity|]); constructor
  end.

(** C1: a run told to save into [/out], started in [/home/u].  The file
    goes to [/home/u/figures], which is the directory that gets made;
    [/out] is neither made nor written to.  [make_plot] takes
    [figures_dir], documents it as the place to save to and insists on
    it, but saves to [os.path.join(os.getcwd(), 'figures')]. *)
Theorem figures_dir_is_not_used :
  let run := main "/data" "/out" true false one_csv in
  run.1 = inr () ∧
  dom (files run.2) = {[ "/home/u/figures/trace1.png" ]} ∧
  dirs run.2 = {[ "/home/u/figures" ]} ∧
  files run.2 !! "/out/trace1.png" = None.
Proof. by vm_compute. Qed.


(** C6 fails as stated: with no status frame the truncated arrays are
    empty and so is the plotted jitter, whose length 0 is not 0 - 1. *)
Lemma jitter_length_counterexample :
  ¬ (∀ (status command : list Z) (series : Series Z),
       metrics status command = inr series →
       Z.of_nat (length (status_jitter_y series)) =
         Z.of_nat (length (truncate status command).1) - 1).
Proof.
  intros Hclaim. specialize (Hclaim [] [11; 14] _ eq_refl).
  vm_compute in Hclaim. discriminate.
Qed.

(** C8 fails as stated: for [run.a.csv] the name is [run], while the file
    name without its extension is [run.a]. *)
Lemma name_is_stem_counterexample :
  ¬ (∀ (w w' : World Z) data_dir listed frames names,
       listing w !! data_dir = Some listed →
       load_data data_dir w = (inr (frames, names), w') →
       names = map stem (csv_names listed)).
Proof.
  intros Hclaim.
  specialize (Hclaim dotted_csv dotted_csv "/data" ["run.a.csv"]
                [sample_frame] ["run"]).
  assert (["run"] = map stem (csv_names ["run.a.csv"])) as Habsurd.
  { apply Hclaim; by vm_compute. }
  vm_compute in Habsurd. discriminate.
Qed.

(** The directory with only [notes.txt]: the run ends in [RuntimeError]. *)
Lemma no_csv_witness :
  main "/data" "/out" true false no_csv = (inl RuntimeError, no_csv).
Proof.
  refine (proj1 (no_csv_is_a_runtime_error no_csv "/data" "/out" true false
                   ["notes.txt"] _ _)).
  - reflexivity.
  - repeat constructor.
Defined.


(** The dump [run.a.csv] is loaded under the name [run]. *)
Lemma names_witness :
  ∃ frames, load_data "/data" dotted_csv = (inr (frames, ["run"]), dotted_csv).
Proof.
  refine (proj1 (names_are_text_before_first_dot dotted_csv "/data" "/out" true false
                   ["run.a.csv"] _ _)).
  - reflexivity.
  - all_parse.
Defined.

(** Status times 10, 12, 15 against command times 11, 14: the delay at
    index 1 is 14 - 12. *)
Lemma command_delay_witness :
  ∃ delay, np_sub (take 2 [11; 14]) (take 2 [10; 12; 15]) = inr delay ∧
           delay !! 1%nat = Some 2.
Proof.
  pose proof (command_delay_over_common_prefix [10; 12; 15] [11; 14]) as Hdelay.
  cbn zeta in Hdelay.
  destruct Hdelay as (series & delay & _ & Hsub & _ & _ & _ & _ & Hat).
  exists delay. split; [exact Hsub|].
  destruct (Hat 1%nat) as (s & c & Hs & Hc & Hd); [simpl; lia|].
  injection Hs as <-. injection Hc as <-. exact Hd.
Defined.

(** Status times 10, 12, 15, 19 against command times 11, 14, 16: the
    status array is cut to 10, 12, 15 and its raw jitter at index 1 is
    12 - 10. *)
Lemma jitter_witness :
  ∃ status_jitter,
    raw_jitter (truncate [10; 12; 15; 19] [11; 14; 16]).1 = inr status_jitter ∧
    status_jitter !! 1%nat = Some 2 ∧
    drop 1 status_jitter !! 0%nat = Some 2.
Proof.
  destruct (jitter_drops_the_wrapped_difference [10; 12; 15; 19] [11; 14; 16])
    as (series & status_jitter & command_jitter & _ & Hraw & _ & _ & _ & _ & _
        & (_ & _ & Hdiff & _) & _).
  exists status_jitter. split; [exact Hraw|].
  apply (Hdiff 0%nat 10 12); reflexivity.
Defined.

(** The sample frame: its row 1 is the one command to the arm. *)
Lemma filter_matches_witness :
  ∃ frames from_arm to_arm,
    filter_data [sample_frame] = inr frames ∧
    frames !! 0%nat = Some (directions from_arm to_arm) ∧
    to_arm_mask sample_frame !! 1%nat = Some true.
Proof.
  destruct (filter_matches_both_addresses [sample_frame])
    as (frames & Hfilter & _ & Hat).
  destruct (Hat 0%nat sample_frame eq_refl)
    as (from_arm & to_arm & Hentry & _ & _ & Hmask & _).
  exists frames, from_arm, to_arm. split_and!; [exact Hfilter | exact Hentry |].
  apply (Hmask 1%nat (mkRow 11 "192.168.38.11" "192.168.38.1") eq_refl).
  by split.
Defined.

(** The sample frame: both of its tables are subsequences of it. *)
Lemma filter_disjoint_witness :
  ∃ frames from_arm to_arm,
    filter_data [sample_frame] = inr frames ∧
    frames !! 0%nat = Some (directions from_arm to_arm) ∧
    sublist from_arm sample_frame ∧ sublist to_arm sample_frame.
Proof.
  destruct (filter_directions_disjoint_and_ordered [sample_frame])
    as (frames & Hfilter & Hat).
  destruct (Hat 0%nat sample_frame eq_refl)
    as (from_arm & to_arm & Hentry & Hfrom & Hto & _).
  by exists frames, from_arm, to_arm.
Defined.
End SampleRuns.


(** * Further properties *)

(** ** Which entries are loaded, and under which names *)

Section NameFacts.
Lemma prefix_nil (s : string) : String.prefix "" s = true.
Proof. by destruct s. Qed.

Lemma prefix_cons a p c (s : string) :
  String.prefix (String a p) (String c s) = bool_decide (a = c) && String.prefix p s.
Proof.
  change (String.prefix (String a p) (String c s))
    with (if ascii_dec a c then String.prefix p s else false).
  destruct (ascii_dec a c) as [->|Hc].
  - by rewrite bool_decide_eq_true_2.
  - by rewrite bool_decide_eq_false_2.
Qed.

(** [s.startswith(p)] holds exactly when [s] is [p] followed by something. *)
Lemma prefix_true_iff (p s : string) :
  String.prefix p s = true ↔ ∃ b, s = p +:+ b.
Proof.
  revert s. induction p as [|a p IH]; intros s.
  - rewrite prefix_nil. split; [|done]. intros _. by exists s.
  - destruct s as [|c s].
    + split; [done|]. by intros [b Hb].
    + rewrite prefix_cons, andb_true_iff, bool_decide_eq_true, IH. split.
      * intros [-> [b ->]]. by exists b.
      * intros [b Hb]. rewrite string_app_cons in Hb. injection Hb as -> ->.
        split; [done|]. by exists b.
Qed.

(** [p in s] holds exactly when [p] occurs somewhere in [s]. *)
Lemma contains_iff (p s : string) :
  contains p s = true ↔ ∃ a b, s = a +:+ p +:+ b.
Proof.
  induction s as [|c s IH].
  - cbn [contains]. rewrite orb_false_r, prefix_true_iff. split.
    + intros [b Hb]. by exists "", b.
    + intros (a & b & Hab). destruct a; [|done]. by exists b.
  - cbn [contains]. rewrite orb_true_iff, prefix_true_iff, IH. split.
    + intros [[b Hb]|(a & b & Hab)].
      * by exists "", b.
      * exists (String c a), b. by rewrite string_app_cons, Hab.
    + intros (a & b & Hab). destruct a as [|c' a].
      * left. by exists b.
      * right. rewrite string_app_cons in Hab. injection Hab as -> ->.
        by exists a, b.
Qed.

(** The entries kept are those of the listing in whose name [.csv] occurs
    anywhere, in the order of the listing. *)
Lemma csv_names_spec (listed : list string) :
  sublist (csv_names listed) listed ∧
  ∀ name, name ∈ csv_names listed ↔
          name ∈ listed ∧ ∃ a b, name = a +:+ ".csv" +:+ b.
Proof.
  split; [apply sublist_filter|].
  intros name. unfold csv_names. by rewrite list_elem_of_filter, contains_iff, (comm and).
Qed.

(** X13: the name [load_data] makes of a file name holds no dot, and the
    file name is that name followed by a rest which, unless it is empty,
    begins with the first dot of the file name. *)
Theorem split_head_is_dotless_prefix (name : string) :
  contains "." (split_head "." name) = false ∧
  ∃ rest, name = split_head "." name +:+ rest ∧
          (rest = "" ∨ String.prefix "." rest = true).
Proof.
  induction name as [|c name [IHdot (rest & IHname & IHrest)]].
  - split; [done|]. exists "". by split; [|left].
  - cbn [split_head]. destruct (Ascii.eqb_spec c ".") as [->|Hc].
    + split; [done|]. exists (String "." name). split; [done|]. right.
      by rewrite prefix_char_cons, bool_decide_eq_true_2.
    + split.
      * cbn [contains]. rewrite IHdot, prefix_char_cons, bool_decide_eq_false_2; done.
      * exists rest. split; [|done]. by rewrite string_app_cons, <- IHname.
Qed.
End NameFacts.

(** ** How a run can end *)

Section Outcomes.
Context {T : Type} `{Scalar T}.
Implicit Types (w : World T) (frame : DataFrame T).

(** Reading stops at the first path without a table. *)
Lemma mapM_read_csv_fail w paths :
  Exists (λ path, tables w !! path = None) paths →
  mapM pd_read_csv paths w = (inl ParserError, w).
Proof.
  induction paths as [|path paths IH]; intros Hbad; [by apply Exists_nil in Hbad|].
  cbn [mapM]. fold (mapM (M := M T) pd_read_csv paths).
  destruct (tables w !! path) as [frame|] eqn:Hpath.
  - rewrite (bind_inr _ _ w frame w) by (unfold pd_read_csv; by rewrite Hpath).
    apply Exists_cons in Hbad as [Hbad|Hbad]; [congruence|].
    by rewrite (bind_inl _ _ _ _ _ (IH Hbad)).
  - apply bind_inl. unfold pd_read_csv. by rewrite Hpath.
Qed.


Lemma load_data_unparsed w data_dir listed :
  listing w !! data_dir = Some listed →
  Exists (λ name, tables w !! path_join data_dir name = None) (csv_names listed) →
  load_data data_dir w = (inl ParserError, w).
Proof.
  intros Hlist Hbad. unfold load_data.
  assert (os_listdir data_dir w = (inr listed, w)) as Hls.
  { unfold os_listdir. by rewrite Hlist. }
  rewrite (bind_inr _ _ _ _ _ Hls), (bind_inr _ _ _ _ _ Hls).
  fold (csv_names listed). apply bind_inl, mapM_read_csv_fail.
  by rewrite Exists_fmap.
Qed.

(** The [__main__] block, once its own check is passed, is [main] on the
    directories given or defaulted, showing unless told to hide. *)
Lemma script_eq (args : Args) w :
  arg_hide args && negb (arg_save args) = false →
  script args w =
    main (default (path_join (cwd w) "data") (arg_data_dir args))
         (default (path_join (cwd w) "figures") (arg_figure_dir args))
         (arg_save args) (negb (arg_hide args)) w.
Proof.
  intros Hflags. unfold script. rewrite Hflags.
  by destruct (arg_data_dir args), (arg_figure_dir args).
Qed.

(** X1: over a directory that lists and whose kept entries all parse,
    [load_data] returns, in the order of the listing, the table and the name
    of every entry in whose name [.csv] occurs anywhere (so [dump.csv.bak]
    is loaded too), and of no other entry; the world is left as it was. *)
Theorem load_data_takes_names_holding_csv w data_dir listed :
  listing w !! data_dir = Some listed →
  Forall (λ name, is_Some (tables w !! path_join data_dir name)) (csv_names listed) →
  ∃ kept frames,
    load_data data_dir w = (inr (frames, map (split_head ".") kept), w) ∧
    Forall2 (λ name frame, tables w !! path_join data_dir name = Some frame) kept frames ∧
    sublist kept listed ∧
    ∀ name, name ∈ kept ↔ name ∈ listed ∧ ∃ a b, name = a +:+ ".csv" +:+ b.
Proof.
  intros Hlist Hparse.
  exists (csv_names listed), (map (λ name, frame_at w (path_join data_dir name)) (csv_names listed)).
  split_and!; [|clear Hlist|apply csv_names_spec..].
  - rewrite (load_data_eq _ _ _ Hlist Hparse). unfold jobs. by rewrite !map_map.
  - induction Hparse as [|name names [frame Hframe] _ IH]; [constructor|].
    cbn [map]. constructor; [|done]. unfold frame_at. by rewrite Hframe.
Qed.


(** X3: one kept entry at which [pd.read_csv] raises ends the whole run
    when the data is loaded, before anything is drawn or written, also for
    the entries that can be read. *)
Theorem unparsed_entry_aborts_the_run w data_dir figures_dir save show listed name :
  listing w !! data_dir = Some listed →
  name ∈ csv_names listed →
  tables w !! path_join data_dir name = None →
  main data_dir figures_dir save show w = (inl ParserError, w).
Proof.
  intros Hlist Hname Hbad. unfold main. apply bind_inl.
  apply (load_data_unparsed _ _ listed Hlist), Exists_exists. eauto.
Qed.

End Outcomes.

(** ** What a successful run changes *)

Section Changes.
Context {T : Type} `{Scalar T}.
Implicit Types (w : World T) (frame : DataFrame T) (js : list (DataFrame T * string)).

Lemma after_jobs_shown save show w js :
  shown (foldl (after_job save show) w js) =
    shown w + (if show then length js else 0).
Proof.
  revert w. induction js as [|j js IH]; intros w.
  - simpl. destruct show; lia.
  - cbn [foldl]. rewrite IH. destruct show; simpl; lia.
Qed.

Lemma path_present_after_job show w (j : DataFrame T * string) :
  path_present (after_job true show w j) (figure_path w) = true.
Proof.
  unfold path_present at 1. cbn [after_job after_plot dirs listing tables files andb].
  destruct (path_present w (figure_path w)) eqn:Hpresent; cbn [negb].
  - unfold path_present in Hpresent.
    apply orb_true_iff in Hpresent as [Hpresent|Hfile].
    + by rewrite Hpresent.
    + apply bool_decide_eq_true in Hfile.
      rewrite !orb_true_iff. right. apply bool_decide_eq_true.
      apply elem_of_dom. rewrite dom_insert_L.
      by apply elem_of_union_r, elem_of_dom.
  - rewrite (bool_decide_eq_true_2 (figure_path w ∈ _)); [done|].
    by apply elem_of_union_l, elem_of_singleton.
Qed.

Lemma after_jobs_dirs_present show w js :
  path_present w (figure_path w) = true →
  dirs (foldl (after_job true show) w js) = dirs w.
Proof.
  revert w. induction js as [|j js IH]; intros w Hpresent; [done|].
  cbn [foldl].
  pose proof (path_present_after_job show w j) as Hnext.
  replace (figure_path w) with (figure_path (after_job true show w j)) in Hnext by done.
  rewrite (IH _ Hnext). cbn [after_job after_plot dirs]. by rewrite Hpresent.
Qed.

Lemma after_jobs_dirs show w js :
  js ≠ [] →
  dirs (foldl (after_job true show) w js) =
    if path_present w (figure_path w) then dirs w else {[figure_path w]} ∪ dirs w.
Proof.
  destruct js as [|j js]; [done|]. intros _. cbn [foldl].
  pose proof (path_present_after_job show w j) as Hnext.
  replace (figure_path w) with (figure_path (after_job true show w j)) in Hnext by done.
  rewrite (after_jobs_dirs_present _ _ _ Hnext). cbn [after_job after_plot dirs].
  by destruct (path_present w (figure_path w)).
Qed.

(** The file of a job is not touched by later jobs that save elsewhere. *)
Lemma after_jobs_keep show w w0 js path (fig : Figure T) :
  cwd w0 = cwd w →
  files w0 !! path = Some fig →
  Forall (λ j, png_path w j.2 ≠ path) js →
  files (foldl (after_job true show) w0 js) !! path = Some fig.
Proof.
  revert w0. induction js as [|j js IH]; intros w0 Hcwd Hfile Hother; [done|].
  apply Forall_cons in Hother as [Hj Hother]. cbn [foldl].
  apply IH; [done| |done]. cbn [after_job after_plot files].
  rewrite lookup_insert_ne; [done|].
  unfold png_path, figure_path in *. by rewrite Hcwd.
Qed.

Lemma after_jobs_app save show w js1 js2 :
  foldl (after_job save show) w (js1 ++ js2) =
    foldl (after_job save show) (foldl (after_job save show) w js1) js2.
Proof. apply foldl_app. Qed.

(** X6: a run that does not save opens its figures all the same, one per
    kept entry, but writes no file and makes no directory. *)
Theorem unsaved_run_writes_nothing w data_dir figures_dir show listed :
  listing w !! data_dir = Some listed →
  Forall (λ name, is_Some (tables w !! path_join data_dir name)) (csv_names listed) →
  csv_names listed ≠ [] →
  ∃ w',
    main data_dir figures_dir false show w = (inr (), w') ∧
    files w' = files w ∧ dirs w' = dirs w ∧
    length (figures w') = length (csv_names listed) + length (figures w).
Proof.
  intros Hlist Hparse Hne. eexists. split; [by apply main_eq|].
  destruct (after_jobs_files_unsaved show w (jobs w data_dir listed)) as [-> ->].
  split_and!; [done..|]. rewrite after_jobs_figures. unfold jobs. by rewrite length_map.
Qed.

(** X7: the script, on flags that pass its check, shows once per figure
    unless [--hide] is given, and then not at all; the figures opened are
    as many as the kept entries either way. *)
Theorem script_shows_unless_hidden w (args : Args) listed :
  arg_hide args && negb (arg_save args) = false →
  listing w !! default (path_join (cwd w) "data") (arg_data_dir args) = Some listed →
  Forall (λ name, is_Some (tables w !!
            path_join (default (path_join (cwd w) "data") (arg_data_dir args)) name))
         (csv_names listed) →
  csv_names listed ≠ [] →
  ∃ w',
    script args w = (inr (), w') ∧
    shown w' = shown w + (if arg_hide args then 0 else length (csv_names listed)) ∧
    length (figures w') = length (csv_names listed) + length (figures w).
Proof.
  intros Hflags Hlist Hparse Hne. eexists.
  split; [rewrite (script_eq _ _ Hflags); by apply main_eq|].
  rewrite after_jobs_shown, after_jobs_figures. unfold jobs. rewrite length_map.
  by destruct (arg_hide args).
Qed.

(** X8: the one directory a saving run can make is [<cwd>/figures], and it
    makes it exactly when nothing exists at that path; afterwards the path
    exists. *)
Theorem saving_run_makes_only_cwd_figures w data_dir figures_dir show listed :
  listing w !! data_dir = Some listed →
  Forall (λ name, is_Some (tables w !! path_join data_dir name)) (csv_names listed) →
  csv_names listed ≠ [] →
  ∃ w',
    main data_dir figures_dir true show w = (inr (), w') ∧
    dirs w' = (if path_present w (path_join (cwd w) "figures") then dirs w
               else {[path_join (cwd w) "figures"]} ∪ dirs w) ∧
    path_present w' (path_join (cwd w) "figures") = true.
Proof.
  intros Hlist Hparse Hne. eexists. split; [by apply main_eq|].
  assert (jobs w data_dir listed ≠ []) as Hjobs.
  { unfold jobs. by destruct (csv_names listed). }
  split; [by apply after_jobs_dirs|].
  destruct (jobs w data_dir listed) as [|j js _] using rev_ind; [done|].
  rewrite after_jobs_app. cbn [foldl].
  pose proof (path_present_after_job show (foldl (after_job true show) w js) j) as Hlast.
  unfold figure_path in Hlast. by rewrite after_jobs_cwd in Hlast.
Qed.

(** X9: when several kept entries are saved under one path, the file holds
    the figure of the last of them: the table of an entry none of whose
    successors saves to the same path is what its file shows, status curve
    from the rows sent by the arm, command curves from the rows sent to it. *)
Theorem last_entry_saved_to_a_path_stays w data_dir figures_dir show listed
    before name after frame :
  listing w !! data_dir = Some listed →
  Forall (λ name, is_Some (tables w !! path_join data_dir name)) (csv_names listed) →
  csv_names listed = before ++ name :: after →
  tables w !! path_join data_dir name = Some frame →
  Forall (λ other, png_path w (split_head "." other) ≠ png_path w (split_head "." name))
         after →
  ∃ w' s,
    main data_dir figures_dir true show w = (inr (), w') ∧
    metrics (map Time (select frame (from_arm_mask frame)))
            (map Time (select frame (to_arm_mask frame))) = inr s ∧
    files w' !! path_join (path_join (cwd w) "figures") (split_head "." name +:+ ".png") =
      Some (mkFigure (split_head "." name)
              [mkCurve "Status Frame Jitter" (status_jitter_x s) (status_jitter_y s);
               mkCurve "Command Frame Jitter" (command_jitter_x s) (command_jitter_y s);
               mkCurve "Command Frame Delay" (command_delay_x s) (command_delay_y s)]).
Proof.
  intros Hlist Hparse Hnames Hframe Hafter.
  destruct (metrics_lengths (map Time (select frame (from_arm_mask frame)))
              (map Time (select frame (to_arm_mask frame)))) as (s & Hs & _).
  eexists _, s. split; [apply (main_eq _ _ _ _ _ listed Hlist Hparse)|split; [exact Hs|]].
  { rewrite Hnames. by destruct before. }
  unfold jobs. rewrite Hnames, map_app. cbn [map].
  rewrite after_jobs_app. cbn [foldl].
  apply (after_jobs_keep show w).
  - cbn [after_job after_plot cwd]. apply after_jobs_cwd.
  - cbn [after_job after_plot files fst snd].
    unfold png_path at 1, figure_path. rewrite after_jobs_cwd.
    rewrite lookup_insert_eq. unfold frame_at. rewrite Hframe.
    cbn [default from_option id]. unfold figure_of. by rewrite Hs.
  - rewrite Forall_map. eapply Forall_impl; [exact Hafter|]. done.
Qed.

(** X10: every file a saving run adds lies directly in [<cwd>/figures] and
    is called [<name>.png] for the name of a kept entry (entries of a
    listing do not start with a slash). *)
Theorem saved_files_lie_in_cwd_figures w data_dir figures_dir show listed :
  listing w !! data_dir = Some listed →
  Forall (λ name, is_Some (tables w !! path_join data_dir name)) (csv_names listed) →
  csv_names listed ≠ [] →
  Forall (λ name, String.prefix "/" name = false) (csv_names listed) →
  ∃ w',
    main data_dir figures_dir true show w = (inr (), w') ∧
    ∀ path, path ∈ dom (files w') →
      path ∈ dom (files w) ∨
      ∃ name, name ∈ csv_names listed ∧
        path = path_join (cwd w) "figures" +:+ "/" +:+ split_head "." name +:+ ".png".
Proof.
  intros Hlist Hparse Hne Hrel. eexists. split; [by apply main_eq|].
  intros path. rewrite after_jobs_files_dom, elem_of_union, elem_of_list_to_set.
  intros [?|Hpath]; [by left|right].
  apply list_elem_of_In, in_map_iff in Hpath as ([fr title] & <- & Hjob).
  unfold jobs in Hjob. apply in_map_iff in Hjob as (name & [= _ <-] & Hname).
  apply list_elem_of_In in Hname. exists name. split; [done|].
  unfold png_path, figure_path. apply path_join_relative, prefix_sep_png.
  apply split_head_prefix_sep. by apply (proj1 (Forall_forall _ _) Hrel).
Qed.

(** X11: given a directory argument and a title without a slash, and with
    no regular file in the place of [<cwd>/figures], [make_plot] does not
    raise whatever rows the two tables hold (none at all included): it
    opens one figure titled [title] with exactly three curves, each with as
    many abscissae as ordinates, saves that figure as
    [<cwd>/figures/<title>.png] if asked to and touches no file otherwise,
    and shows if asked to. *)
Theorem make_plot_draws_three_curves status_frame command_frame title save show
    figures_dir w :
  contains "/" title = false →
  is_regular_file w (path_join (cwd w) "figures") = false →
  ∃ w' s,
    make_plot status_frame command_frame title save show (Some figures_dir) w = (inr (), w') ∧
    metrics (map Time status_frame) (map Time command_frame) = inr s ∧
    let fig := mkFigure title
        [mkCurve "Status Frame Jitter" (status_jitter_x s) (status_jitter_y s);
         mkCurve "Command Frame Jitter" (command_jitter_x s) (command_jitter_y s);
         mkCurve "Command Frame Delay" (command_delay_x s) (command_delay_y s)] in
    figures w' = fig :: figures w ∧
    Forall (λ c, length (xs c) = length (ys c)) (curves fig) ∧
    files w' =
      (if save
       then <[path_join (cwd w) "figures" +:+ "/" +:+ title +:+ ".png" := fig]> (files w)
       else files w) ∧
    shown w' = (if show then S (shown w) else shown w).
Proof.
  intros Htitle _.
  destruct (metrics_lengths (map Time status_frame) (map Time command_frame))
    as (s & Hs & L1 & L2 & L3).
  eexists _, s. split; [apply make_plot_eq|]. split; [exact Hs|].
  cbn zeta. cbn [after_plot figures files shown curves]. unfold figure_of. rewrite Hs.
  split_and!; [done|by repeat constructor| |done].
  destruct save; [|done]. unfold png_path, figure_path.
  by rewrite path_join_relative by (by apply prefix_sep_png, contains_prefix_false).
Qed.
End Changes.

(** ** Edge cases of the series and of the filter *)

Section Edges.
Context {T : Type} `{Scalar T}.
Implicit Types (frame : DataFrame T) (row : Row T).

(** X12: when one of the two time arrays is empty (a dump with traffic in
    one direction only), nothing raises and all three curves are empty,
    whatever the other array holds. *)
Theorem one_empty_direction_gives_empty_curves (status command : list T) :
  status = [] ∨ command = [] →
  metrics status command = inr (mkSeries [] [] [] [] [] []).
Proof.
  intros Hempty. rewrite metrics_eq, truncate_eq.
  assert (length status `min` length command = 0) as ->.
  { destruct Hempty as [-> | ->]; simpl; lia. }
  by rewrite !take_0.
Qed.

(** A single time stamp in each direction gives one delay point and no
    jitter point: the only raw difference is the wrapped one. *)
Lemma single_samples_give_delay_only (s c : T) :
  metrics [s] [c] = inr (mkSeries [] [] [] [] [c] [scale_ms (sub c s)]).
Proof. reflexivity. Qed.

Lemma filter_from_not_to frame :
  filter is_from_arm (filter (λ r, ¬ is_to_arm r) frame) = filter is_from_arm frame.
Proof.
  rewrite list_filter_filter. apply list_filter_iff. intros row.
  split; [tauto|]. intros Hfrom. split; [done|].
  intros Hto. by apply (directions_exclusive row).
Qed.

Lemma filter_none (P : Row T → Prop) `{!∀ r, Decision (P r)} frame :
  (∀ row, ¬ P row) → filter P frame = [].
Proof.
  intros Hnone. induction frame as [|r frame IH]; [done|].
  rewrite filter_cons, decide_False by apply Hnone. done.
Qed.

Lemma filter_again (P : Row T → Prop) `{!∀ r, Decision (P r)} frame :
  filter P (filter P frame) = filter P frame.
Proof. rewrite list_filter_filter. apply list_filter_iff. tauto. Qed.

Lemma filter_other_direction (P Q : Row T → Prop)
    `{!∀ r, Decision (P r), !∀ r, Decision (Q r)} frame :
  (∀ row, P row → Q row → False) → filter P (filter Q frame) = [].
Proof.
  intros Hexcl. rewrite list_filter_filter. apply filter_none.
  intros row [? ?]. by apply (Hexcl row).
Qed.

(** X14: the two tables [filter_data] makes of a frame, together with the
    rows matching neither address pair, are the frame's rows rearranged:
    no row is lost or doubled, and the dropped rows are exactly those
    matching neither pair. *)
Theorem filter_splits_frame_three_ways (dataframes : list (DataFrame T)) :
  ∃ frames,
    filter_data dataframes = inr frames ∧
    ∀ i frame, dataframes !! i = Some frame →
      ∃ from_arm to_arm,
        frames !! i = Some (directions from_arm to_arm) ∧
        to_arm ++ from_arm ++ filter (λ r, ¬ is_to_arm r ∧ ¬ is_from_arm r) frame
          ≡ₚ frame ∧
        length to_arm + length from_arm
          + length (filter (λ r, ¬ is_to_arm r ∧ ¬ is_from_arm r) frame)
          = length frame.
Proof.
  exists (map split_frame dataframes). split; [apply filter_data_eq|].
  intros i frame Hframe. eexists _, _.
  split; [by rewrite lookup_map, Hframe|].
  assert (select frame (to_arm_mask frame) ++ select frame (from_arm_mask frame)
            ++ filter (λ r, ¬ is_to_arm r ∧ ¬ is_from_arm r) frame ≡ₚ frame) as Hperm.
  { rewrite select_to_arm, select_from_arm.
    rewrite <- (filter_app_complement is_to_arm frame) at 4.
    apply Permutation_app_head.
    rewrite <- (filter_app_complement is_from_arm (filter (λ r, ¬ is_to_arm r) frame)).
    rewrite filter_from_not_to, list_filter_filter.
    apply Permutation_app_head.
    match goal with |- ?a ≡ₚ ?b => replace a with b; [done|] end.
    apply list_filter_iff. tauto. }
  split; [exact Hperm|].
  apply Permutation_length in Hperm. rewrite !length_app in Hperm. lia.
Qed.

(** X15: filtering the two tables again changes nothing: the table of rows
    to the arm is all to the arm and none from it, and the other way
    round. *)
Theorem filter_data_is_idempotent frame :
  filter_data [select frame (to_arm_mask frame); select frame (from_arm_mask frame)] =
    inr [directions [] (select frame (to_arm_mask frame));
         directions (select frame (from_arm_mask frame)) []].
Proof.
  rewrite filter_data_eq. cbn [map]. unfold split_frame.
  rewrite !select_to_arm, !select_from_arm, !filter_again.
  rewrite (filter_other_direction is_from_arm is_to_arm),
          (filter_other_direction is_to_arm is_from_arm); [done|..].
  - intros row Hto Hfrom. by apply (directions_exclusive row).
  - intros row Hfrom Hto. by apply (directions_exclusive row).
Qed.
End Edges.

(** ** The output directory argument *)

Section FigureDir.
Context {T : Type} `{Scalar T}.

(** X16: neither [--figure-dir] nor the [figures_dir] argument of [main]
    has any influence: for every flag setting and every world, the script
    ends the same way and leaves the same world whatever directory is
    given or whether one is given at all. *)
Theorem figure_dir_never_matters (w : World T) data_dir figure_dir figure_dir' hide save :
  script (mkArgs data_dir figure_dir hide save) w =
    script (mkArgs data_dir figure_dir' hide save) w ∧
  ∀ d fd fd' show, main d fd save show w = main d fd' save show w.
Proof.
  split; [|intros; apply main_ignores_figures_dir].
  destruct (hide && negb save) eqn:Hflags.
  - unfold script. cbn [arg_hide arg_save]. rewrite Hflags.
    by destruct data_dir, figure_dir, figure_dir'.
  - rewrite !script_eq by done. apply main_ignores_figures_dir.
Qed.
End FigureDir.

(** ** More sample runs *)

Section MoreSampleRuns.
Local Open Scope Z_scope.

Ltac parses :=
  match goal with
  | |- Forall _ (csv_names ?l) =>
      let names := eval vm_compute in (csv_names l) in
      change (csv_names l) with names;
      repeat (constructor; [eexists; vm_compute; reflexivity|]); constructor
  end.

(** The backup copy [dump.csv.bak] is loaded, under the name [dump]. *)
Lemma load_data_witness :
  ∃ kept frames,
    load_data "/data" backup_csv = (inr (frames, map (split_head ".") kept), backup_csv) ∧
    "dump.csv.bak" ∈ kept.
Proof.
  destruct (load_data_takes_names_holding_csv backup_csv "/data"
              ["dump.csv.bak"; "notes.txt"])
    as (kept & frames & Hload & _ & _ & Hkept).
  - reflexivity.
  - parses.
  - exists kept, frames. split; [exact Hload|].
    apply Hkept. split; [by left|]. by exists "dump", ".bak".
Defined.


(** [bad.csv] cannot be read, and [trace1.csv] is not drawn either. *)
Lemma unparsed_entry_witness :
  main "/data" "/out" true false broken_csv = (inl ParserError, broken_csv).
Proof.
  apply (unparsed_entry_aborts_the_run broken_csv "/data" "/out" true false
           ["trace1.csv"; "bad.csv"] "bad.csv").
  - reflexivity.
  - apply list_elem_of_In. vm_compute. auto.
  - reflexivity.
Defined.

(** Two dumps, not saved: two figures and no file. *)
Lemma unsaved_run_witness :
  ∃ w', main "/data" "/out" false false two_csv = (inr (), w') ∧
        files w' = ∅ ∧ length (figures w') = 2%nat.
Proof.
  destruct (unsaved_run_writes_nothing two_csv "/data" "/out" false
              ["trace1.csv"; "trace2.csv"])
    as (w' & Hrun & Hfiles & _ & Hfigures).
  - reflexivity.
  - parses.
  - by vm_compute.
  - exists w'. split_and!; [exact Hrun | exact Hfiles | exact Hfigures].
Defined.

(** [--data-dir /data --save --hide] over two dumps: nothing is shown. *)
Lemma script_hidden_witness :
  ∃ w', script (mkArgs (Some "/data") None true true) two_csv = (inr (), w') ∧
        shown w' = 0%nat ∧ length (figures w') = 2%nat.
Proof.
  destruct (script_shows_unless_hidden two_csv (mkArgs (Some "/data") None true true)
              ["trace1.csv"; "trace2.csv"])
    as (w' & Hrun & Hshown & Hfigures).
  - reflexivity.
  - reflexivity.
  - parses.
  - by vm_compute.
  - exists w'. split_and!; [exact Hrun | exact Hshown | exact Hfigures].
Defined.

(** One dump, saved, started in [/home/u]: [/home/u/figures] is made. *)
Lemma figures_directory_witness :
  ∃ w', main "/data" "/out" true false one_csv = (inr (), w') ∧
        dirs w' = {[ "/home/u/figures" ]} ∪ ∅.
Proof.
  destruct (saving_run_makes_only_cwd_figures one_csv "/data" "/out" false ["trace1.csv"])
    as (w' & Hrun & Hdirs & _).
  - reflexivity.
  - parses.
  - by vm_compute.
  - exists w'. split; [exact Hrun | exact Hdirs].
Defined.

(** [run.a.csv] then [run.b.csv]: [run.png] is titled [run] and was drawn
    for the second. *)
Lemma last_entry_witness :
  ∃ w' fig, main "/data" "/out" true false colliding_csv = (inr (), w') ∧
            files w' !! "/home/u/figures/run.png" = Some fig ∧
            suptitle fig = "run".
Proof.
  destruct (last_entry_saved_to_a_path_stays colliding_csv "/data" "/out" false
              ["run.a.csv"; "run.b.csv"] ["run.a.csv"] "run.b.csv" [] sample_frame)
    as (w' & s & Hrun & _ & Hfile).
  - reflexivity.
  - parses.
  - reflexivity.
  - reflexivity.
  - constructor.
  - exists w'. eexists. split_and!; [exact Hrun | exact Hfile | reflexivity].
Defined.

(** One dump, saved: the one file is [/home/u/figures/trace1.png]. *)
Lemma saved_files_witness :
  ∃ w', main "/data" "/out" true false one_csv = (inr (), w') ∧
        ∀ path, path ∈ dom (files w') →
          path ∈ dom (files one_csv) ∨
          ∃ name, name ∈ csv_names ["trace1.csv"] ∧
            path = path_join (cwd one_csv) "figures" +:+ "/" +:+ split_head "." name +:+ ".png".
Proof.
  apply (saved_files_lie_in_cwd_figures one_csv "/data" "/out" false ["trace1.csv"]).
  - reflexivity.
  - parses.
  - by vm_compute.
  - repeat constructor.
Defined.

(** The rows of the sample frame as both tables, titled [t]: one figure
    more, saved as [/home/u/figures/t.png]. *)
Lemma make_plot_witness :
  ∃ w' fig, make_plot sample_frame sample_frame "t" true false (Some "/out") one_csv
              = (inr (), w') ∧
            files w' !! "/home/u/figures/t.png" = Some fig ∧
            length (figures w') = 1%nat.
Proof.
  destruct (make_plot_draws_three_curves sample_frame sample_frame "t" true false
              "/out" one_csv)
    as (w' & s & Hrun & _ & Hfigures & _ & Hfiles & _).
  - reflexivity.
  - reflexivity.
  - exists w'. eexists. split_and!; [exact Hrun | |by rewrite Hfigures].
    rewrite Hfiles. apply lookup_insert_eq.
Defined.

(** Status frames only: three empty curves. *)
Lemma empty_direction_witness :
  metrics [10; 12; 15] [] = inr (mkSeries [] [] [] [] [] []).
Proof. apply one_empty_direction_gives_empty_curves. by right. Defined.

(** The sample frame: two rows from the arm, one to it, one dropped. *)
Lemma filter_splits_witness :
  ∃ frames from_arm to_arm,
    filter_data [sample_frame] = inr frames ∧
    frames !! 0%nat = Some (directions from_arm to_arm) ∧
    (length to_arm + length from_arm + 1 = 4)%nat.
Proof.
  destruct (filter_splits_frame_three_ways [sample_frame]) as (frames & Hfilter & Hat).
  destruct (Hat 0%nat sample_frame eq_refl)
    as (from_arm & to_arm & Hentry & _ & Hcount).
  exists frames, from_arm, to_arm. split_and!; [exact Hfilter | exact Hentry | exact Hcount].
Defined.
End MoreSampleRuns.
